(** * tools/process-codelab-source-file.py

    A shallow embedding of the codelab section stripper and the
    properties of its scan loop.

    The script reads the file named by its first argument line by line,
    keeps every line read while its [discard] flag is off, turns the flag
    on after a line that contains ['// CODELAB: '], turns it off at a line
    that contains ['// CODELAB SECTION END'] (a line that is not kept), and
    writes the kept lines back to the same file.

    Text is modelled as [string], a sequence of bytes: a file is the bytes
    it holds, and a Python [str] is its UTF-8 encoding.  Both files are
    opened in text mode with the default [encoding], [errors] and
    [newline]; the model takes UTF-8 for the encoding and the line feed for
    [os.linesep], as on the systems where the driver shell script runs.
    Reading decodes the bytes (and fails on bytes that are not UTF-8) and
    turns every line ending, CR LF or CR or LF, into a line feed; writing
    stores the text as it is.  The two markers are ASCII, so a marker occurs
    in a [str] exactly when its bytes occur in the encoding.  The file store
    maps a path to the bytes of the file.  A write that fails after the
    file has been opened (no space left on the device) is outside the
    model. *)

From Stdlib Require Import Ascii String List Bool Arith Lia.
From stdpp Require Import base list strings gmap.
Import ListNotations.

Local Open Scope string_scope.
Local Open Scope list_scope.

(** ** Text: substring test and line iteration *)

Module Text.

(** The line feed character, Python's ['\n']. *)
Definition LF : ascii := Ascii.ascii_of_nat 10.

(** A text that ends with a line feed: [nl "A"] is Python's ['A\n']. *)
Definition nl (s : string) : string := s +:+ String LF EmptyString.

(** [starts_with pat s]: [s] begins with [pat] (Python's [s.startswith(pat)]). *)
Fixpoint starts_with (pat s : string) : bool :=
  match pat, s with
  | EmptyString, _ => true
  | String _ _, EmptyString => false
  | String a pat', String b s' => if Ascii.eqb a b then starts_with pat' s' else false
  end.

(** [contains pat s]: Python's [pat in s] on two [str] values, that is,
    [pat] occurs in [s] as a contiguous substring at some offset. *)
Fixpoint contains (pat s : string) : bool :=
  if starts_with pat s then true
  else match s with
       | EmptyString => false
       | String _ s' => contains pat s'
       end.

(** The carriage return character, Python's ['\r']. *)
Definition CR : ascii := Ascii.ascii_of_nat 13.

(** Universal newlines on reading ([newline=None]): CR LF and a CR alone
    both become a line feed. *)
Fixpoint universal_newlines (s : string) : string :=
  match s with
  | EmptyString => EmptyString
  | String c s' =>
      if Ascii.eqb c CR then
        match s' with
        | String c' s'' =>
            if Ascii.eqb c' LF then String LF (universal_newlines s'')
            else String LF (universal_newlines s')
        | EmptyString => String LF EmptyString
        end
      else String c (universal_newlines s')
  end.

(** Cutting a text into lines: the text is cut after every line feed,
    every line keeps its line feed, and a last line without line feed is
    delivered as it is.  An empty text has no line. *)
Fixpoint split_lf (s : string) : list string :=
  match s with
  | EmptyString => []
  | String c s' =>
      if Ascii.eqb c LF then String c EmptyString :: split_lf s'
      else match split_lf s' with
           | [] => [String c EmptyString]
           | l :: ls => String c l :: ls
           end
  end.

(** Iterating over a text file opened with ['rt'] ([for line in infile]):
    the lines of the text after the translation of the line endings. *)
Definition iter_lines (s : string) : list string :=
  split_lf (universal_newlines s).

(** What a line handed out by the iteration looks like: it is not empty,
    it holds no carriage return, and a line feed only as its last
    character. *)
Fixpoint is_line (l : string) : bool :=
  match l with
  | EmptyString => false
  | String c EmptyString => negb (Ascii.eqb c CR)
  | String c l' => negb (Ascii.eqb c LF) && negb (Ascii.eqb c CR) && is_line l'
  end.

(** [lo <= b <= hi] on the code of a byte. *)
Definition byte_in (lo hi : nat) (b : ascii) : bool :=
  (lo <=? nat_of_ascii b)%nat && (nat_of_ascii b <=? hi)%nat.

(** A continuation byte, [0x80] to [0xBF]. *)
Definition utf8_cont (b : ascii) : bool := byte_in 128 191 b.

(** The second byte allowed after the first byte [b0] of a sequence of
    three bytes: no overlong form after [0xE0], no surrogate after [0xED]. *)
Definition utf8_second3 (b0 b1 : ascii) : bool :=
  if byte_in 224 224 b0 then byte_in 160 191 b1
  else if byte_in 237 237 b0 then byte_in 128 159 b1
  else utf8_cont b1.

(** The second byte allowed after the first byte [b0] of a sequence of
    four bytes: no overlong form after [0xF0], nothing above U+10FFFF
    after [0xF4]. *)
Definition utf8_second4 (b0 b1 : ascii) : bool :=
  if byte_in 240 240 b0 then byte_in 144 191 b1
  else if byte_in 244 244 b0 then byte_in 128 143 b1
  else utf8_cont b1.

(** The bytes that the strict UTF-8 decoder accepts: a sequence of
    well-formed encodings of one, two, three or four bytes.  On any other
    bytes reading raises [UnicodeDecodeError]. *)
Fixpoint utf8_valid (s : string) : bool :=
  match s with
  | EmptyString => true
  | String b0 s1 =>
      if byte_in 0 127 b0 then utf8_valid s1
      else
        match s1 with
        | EmptyString => false
        | String b1 s2 =>
            if byte_in 194 223 b0 then utf8_cont b1 && utf8_valid s2
            else
              match s2 with
              | EmptyString => false
              | String b2 s3 =>
                  if byte_in 224 239 b0
                  then utf8_second3 b0 b1 && utf8_cont b2 && utf8_valid s3
                  else
                    match s3 with
                    | EmptyString => false
                    | String b3 s4 =>
                        if byte_in 240 244 b0
                        then utf8_second4 b0 b1 && utf8_cont b2 && utf8_cont b3
                             && utf8_valid s4
                        else false
                    end
              end
        end
  end.

(** Writing the strings of a list one after the other to a file opened
    with mode ['w'] (truncated at [open]): every [outfile.write(line)]
    appends [line] to what the file holds. *)
Definition write_all (ls : list string) : string :=
  fold_left (fun content line => content +:+ line) ls EmptyString.

End Text.

(** ** The scan loop *)

Module Codelab.
Import Text.

Definition codelabStartPattern : string := "// CODELAB: ".
Definition codelabEndPattern : string := "// CODELAB SECTION END".

(** The two variables the loop works on: the flag [discard] and the list
    [lines] of the lines kept so far. *)
Record scan_state : Type := ScanState {
  discard : bool;
  lines : list string
}.

(** [lines = []] and [discard = False] before the first line is read. *)
Definition init : scan_state := {| discard := false; lines := [] |}.

(** The body of [for line in infile]. *)
Definition step (st : scan_state) (line : string) : scan_state :=
  if discard st then
    if contains codelabEndPattern line
    then {| discard := false; lines := lines st |}
    else st
  else
    let kept := lines st ++ [line] in
    if contains codelabStartPattern line
    then {| discard := true; lines := kept |}
    else {| discard := false; lines := kept |}.

(** The whole loop, from a given state. *)
Definition scan_from (st : scan_state) (ls : list string) : scan_state :=
  fold_left step ls st.

Definition scan (ls : list string) : scan_state := scan_from init ls.

(** The lines the script writes back for the lines it has read. *)
Definition filter_lines (ls : list string) : list string := lines (scan ls).

End Codelab.

(** ** The script as a process: arguments, file store, exit *)

Module Script.
Import Text Codelab.

(** What the script does to files, in the order it does it. *)
Inductive io_event : Type :=
  | OpenRead (path : string)
  | OpenWrite (path : string)
  | WriteText (path : string) (data : string).

(** The part of the outside that the script touches: the bytes of every
    existing file, the paths that the system refuses to open for reading
    and for writing, what has been printed on standard error, and the
    trace of the file operations that took place. *)
Record world : Type := World {
  files : gmap string string;
  unreadable : gset string;
  unwritable : gset string;
  stderr : string;
  io_log : list io_event
}.

(** The exceptions that leave the script: [sys.exit(msg)] raises
    [SystemExit(msg)]; [open] raises [FileNotFoundError] for a missing file
    opened for reading and [PermissionError] for a file that may not be
    opened; reading bytes that are not UTF-8 raises [UnicodeDecodeError]. *)
Inductive exn : Type :=
  | SystemExit (arg : string)
  | FileNotFoundError (path : string)
  | PermissionError (path : string)
  | UnicodeDecodeError.

Inductive result (A : Type) : Type :=
  | Ok (a : A)
  | Raise (e : exn).
Arguments Ok {A} a.
Arguments Raise {A} e.

(** Statements of the script: they change the world and return or raise. *)
Definition M (A : Type) : Type := world -> result A * world.

#[export] Instance M_ret : MRet M := fun A a w => (Ok a, w).
#[export] Instance M_bind : MBind M := fun A B k c w =>
  match c w with
  | (Ok a, w') => k a w'
  | (Raise e, w') => (Raise e, w')
  end.

Definition raise {A : Type} (e : exn) : M A := fun w => (Raise e, w).

(** [open(file, 'rt')]: the bytes of the file, or [FileNotFoundError]
    when there is no such file, or [PermissionError] when the file may not
    be read. *)
Definition open_read (path : string) : M string := fun w =>
  match files w !! path with
  | None => (Raise (FileNotFoundError path), w)
  | Some bytes =>
      if decide (path ∈ unreadable w) then (Raise (PermissionError path), w)
      else (Ok bytes, {| files := files w;
                         unreadable := unreadable w; unwritable := unwritable w;
                         stderr := stderr w;
                         io_log := io_log w ++ [OpenRead path] |})
  end.

(** [for line in infile]: the lines of the decoded text, or
    [UnicodeDecodeError].  The loop of the script only fills [lines], so
    an error in the middle of the file leaves no other trace than the one
    at its beginning. *)
Definition decode_lines (bytes : string) : M (list string) :=
  if utf8_valid bytes then mret (iter_lines bytes) else raise UnicodeDecodeError.

(** [with open(file, 'rt') as infile: for line in infile: ...] *)
Definition read_lines (path : string) : M (list string) :=
  bytes ← open_read path;
  decode_lines bytes.

(** [open(file, 'w')]: the file is empty afterwards; [PermissionError],
    and the file as it was, when the file may not be written. *)
Definition open_write (path : string) : M unit := fun w =>
  if decide (path ∈ unwritable w) then (Raise (PermissionError path), w)
  else (Ok tt, {| files := <[path := EmptyString]> (files w);
                  unreadable := unreadable w; unwritable := unwritable w;
                  stderr := stderr w;
                  io_log := io_log w ++ [OpenWrite path] |}).

(** [outfile.write(line)]: [line] is added at the end of the file. *)
Definition write (path line : string) : M unit := fun w =>
  (Ok tt, {| files := alter (fun text => text +:+ line) path (files w);
             unreadable := unreadable w; unwritable := unwritable w;
             stderr := stderr w;
             io_log := io_log w ++ [WriteText path line] |}).

(** [for line in lines: outfile.write(line)] *)
Fixpoint write_each (path : string) (ls : list string) : M unit :=
  match ls with
  | [] => mret tt
  | line :: ls' => write path line ≫= fun _ => write_each path ls'
  end.

Definition usage_error : string :=
  "Error: Please specify the name of the file to process.".

(** The script, top to bottom.  [argv] is [sys.argv]: the name of the
    script followed by its arguments. *)
Definition main (argv : list string) : M unit :=
  if (List.length argv <? 2)%nat then raise (SystemExit usage_error)
  else
    let file := nth 1 argv EmptyString in
    ls ← read_lines file;
    let kept := lines (scan ls) in
    open_write file ≫= fun _ =>
    write_each file kept.

(** How the interpreter ends the process.  A script that runs to its end
    gives status 0.  [SystemExit] with a string argument prints the string
    and a line feed on standard error and gives status 1.  Any other
    exception that is not caught gives status 1 as well (after a traceback
    on standard error, whose text is not modelled). *)
Record process_end : Type := ProcessEnd {
  status : nat;
  final : world
}.

Definition print_stderr (msg : string) (w : world) : world :=
  {| files := files w; unreadable := unreadable w; unwritable := unwritable w;
     stderr := stderr w +:+ nl msg; io_log := io_log w |}.

Definition run (argv : list string) (w : world) : process_end :=
  match main argv w with
  | (Ok _, w') => {| status := 0; final := w' |}
  | (Raise (SystemExit msg), w') => {| status := 1; final := print_stderr msg w' |}
  | (Raise _, w') => {| status := 1; final := w' |}
  end.

End Script.

(** ** Vocabulary of the specification *)

Module Spec.
Import Text Codelab.

(** A start-marker line contains ['// CODELAB: '], an end-marker line
    contains ['// CODELAB SECTION END'], anywhere in the line. *)
Definition is_start (line : string) : bool := contains codelabStartPattern line.
Definition is_end (line : string) : bool := contains codelabEndPattern line.

(** KEEPING and DISCARDING are the two values of the flag [discard]. *)
Definition keeping (st : scan_state) : Prop := discard st = false.
Definition discarding (st : scan_state) : Prop := discard st = true.

(** A well-formed file: every line that contains the start marker is
    followed, later in the file, by a line that contains the end marker. *)
Fixpoint well_formed (ls : list string) : bool :=
  match ls with
  | [] => true
  | l :: ls' => (negb (is_start l) || existsb is_end ls') && well_formed ls'
  end.

(** A clean file: no line contains either marker. *)
Definition clean (ls : list string) : Prop :=
  Forall (fun l => is_start l = false ∧ is_end l = false) ls.

(** Removing the marked regions, in the words of the specification.  A
    region is opened by a start-marker line [s] that is outside every
    region, and closed by its matching end-marker line [e], the first
    end-marker line after [s].  The lines [body] strictly between the two
    and [e] itself are removed; [s] and the lines outside the regions stay. *)
Inductive stripped : list string -> list string -> Prop :=
  | stripped_outside (pre : list string) :
      Forall (fun l => is_start l = false) pre ->
      stripped pre pre
  | stripped_region (pre : list string) (s : string) (body : list string)
                    (e : string) (rest out : list string) :
      Forall (fun l => is_start l = false) pre ->
      is_start s = true ->
      Forall (fun l => is_end l = false) body ->
      is_end e = true ->
      stripped rest out ->
      stripped (pre ++ s :: body ++ e :: rest) (pre ++ s :: out).

(** The decision the loop takes for every line it reads, in reading order:
    [true] when the line is appended to [lines] (the flag is off when the
    line is read), [false] when it is skipped. *)
Fixpoint classify (st : scan_state) (ls : list string) : list bool :=
  match ls with
  | [] => []
  | l :: ls' => negb (discard st) :: classify (step st l) ls'
  end.

(** The elements of [ls] at the positions where [mask] is [true]. *)
Fixpoint select {A : Type} (mask : list bool) (ls : list A) : list A :=
  match mask, ls with
  | true :: mask', x :: ls' => x :: select mask' ls'
  | false :: mask', _ :: ls' => select mask' ls'
  | _, _ => []
  end.

(** The lines kept from [ls] when the loop starts with flag [d]: the loop
    written by recursion on the lines still to read. *)
Fixpoint keep (d : bool) (ls : list string) : list string :=
  match ls with
  | [] => []
  | l :: ls' =>
      if d then keep (negb (is_end l)) ls'
      else l :: keep (is_start l) ls'
  end.

(** The flag after the loop has read [ls], started with flag [d]. *)
Fixpoint flag_after (d : bool) (ls : list string) : bool :=
  match ls with
  | [] => d
  | l :: ls' => flag_after (if d then negb (is_end l) else is_start l) ls'
  end.

(** The five-line example of the specification and its expected output. *)
Definition example_in : list string :=
  [ nl "A"; nl "// CODELAB: B"; nl "secret"; nl "// CODELAB SECTION END"; nl "C" ].

Definition example_out : list string :=
  [ nl "A"; nl "// CODELAB: B"; nl "C" ].

(** A region with a second start marker inside it. *)
Definition nested_in : list string :=
  [ nl "// CODELAB: A"; nl "// CODELAB: B"; nl "// CODELAB SECTION END" ].

(** An end marker outside every region. *)
Definition stray_end_in : list string :=
  [ nl "// CODELAB SECTION END" ].

(** An open region with a second start marker inside it, at the end of
    the file. *)
Definition nested_open_in : list string :=
  [ nl "// CODELAB: A"; nl "// CODELAB: B" ].

(** A line that contains both markers. *)
Definition both_markers : string :=
  nl "// CODELAB: B // CODELAB SECTION END".

(** A file that stops inside a region, and a file store that holds it. *)
Definition open_region_text : string :=
  nl "A" +:+ nl "// CODELAB: B" +:+ nl "secret" +:+ "more".

Definition open_region_world : Script.world :=
  {| Script.files := {[ "Main.kt" := open_region_text ]};
     Script.unreadable := ∅; Script.unwritable := ∅;
     Script.stderr := EmptyString; Script.io_log := [] |}.

(** A file store without any file, nothing printed yet. *)
Definition empty_world : Script.world :=
  {| Script.files := ∅; Script.unreadable := ∅; Script.unwritable := ∅;
     Script.stderr := EmptyString; Script.io_log := [] |}.

(** A file without start marker, with an end marker outside every region
    and a last line without line feed, and a file store that holds it
    beside a second file. *)
Definition no_start_text : string :=
  nl "A" +:+ nl "// CODELAB SECTION END" +:+ "C".

Definition two_file_world : Script.world :=
  {| Script.files := {[ "Main.kt" := no_start_text; "Other.kt" := open_region_text ]};
     Script.unreadable := ∅; Script.unwritable := ∅;
     Script.stderr := EmptyString; Script.io_log := [] |}.

(** A file without marker whose lines end with CR LF and with CR, and a
    file store that holds it. *)
Definition crlf_text : string :=
  String "A" (String CR (String LF (String "B" (String CR "C")))).

Definition crlf_world : Script.world :=
  {| Script.files := {[ "Main.kt" := crlf_text ]};
     Script.unreadable := ∅; Script.unwritable := ∅;
     Script.stderr := EmptyString; Script.io_log := [] |}.

(** A file with a byte that is not UTF-8 after its first line, and a file
    store that holds it. *)
Definition undecodable_text : string :=
  nl "A" +:+ String (ascii_of_nat 255) (nl "B").

Definition undecodable_world : Script.world :=
  {| Script.files := {[ "Main.kt" := undecodable_text ]};
     Script.unreadable := ∅; Script.unwritable := ∅;
     Script.stderr := EmptyString; Script.io_log := [] |}.

(** A file store whose file may be read and may not be written. *)
Definition read_only_world : Script.world :=
  {| Script.files := {[ "Main.kt" := open_region_text ]};
     Script.unreadable := ∅; Script.unwritable := {[ "Main.kt" ]};
     Script.stderr := EmptyString; Script.io_log := [] |}.

End Spec.

(** ** Facts about text *)

Module TextFacts.
Import Text.

Lemma append_cons (c : ascii) (s t : string) :
  String c s +:+ t = String c (s +:+ t).
Proof. reflexivity. Qed.

Lemma append_nil_l (t : string) : EmptyString +:+ t = t.
Proof. reflexivity. Qed.

Lemma append_nil_r (s : string) : s +:+ EmptyString = s.
Proof.
  induction s as [|c s IH]; [reflexivity |]. by rewrite append_cons, IH.
Qed.

Lemma append_assoc (a b c : string) : (a +:+ b) +:+ c = a +:+ (b +:+ c).
Proof.
  induction a as [|x a IH]; [reflexivity |]. by rewrite !append_cons, IH.
Qed.

(** [starts_with] is the prefix relation. *)
Lemma starts_with_spec (pat s : string) :
  starts_with pat s = true ↔ ∃ rest, s = pat +:+ rest.
Proof.
  revert s. induction pat as [|a pat IH]; intros s; simpl.
  - split; [intros _; by exists s | done].
  - destruct s as [|b s].
    + split; [done | intros [rest Hr]; discriminate Hr].
    + setoid_rewrite append_cons. destruct (Ascii.eqb a b) eqn:Hab.
      * apply Ascii.eqb_eq in Hab as ->. rewrite IH.
        split; intros [rest Hr]; exists rest; [by rewrite Hr | by injection Hr].
      * apply Ascii.eqb_neq in Hab.
        split; [done | intros [rest Hr]; injection Hr; intros _ E; by destruct Hab].
Qed.

(** [contains pat s] holds exactly when [pat] occurs inside [s]. *)
Lemma contains_spec (pat s : string) :
  contains pat s = true ↔ ∃ before after, s = before +:+ pat +:+ after.
Proof.
  induction s as [|c s IH].
  - simpl. destruct (starts_with pat EmptyString) eqn:Hp.
    + apply starts_with_spec in Hp as [rest Hr].
      split; [intros _; by exists EmptyString, rest | done].
    + split; [done |]. intros (before & after & E).
      destruct before; [| discriminate E]. rewrite append_nil_l in E.
      assert (starts_with pat EmptyString = true) as Hs
        by (apply starts_with_spec; by exists after).
      congruence.
  - simpl. destruct (starts_with pat (String c s)) eqn:Hp.
    + apply starts_with_spec in Hp as [rest Hr].
      split; [intros _; by exists EmptyString, rest | done].
    + rewrite IH. split.
      * intros (before & after & ->). by exists (String c before), after.
      * intros (before & after & E). destruct before as [|b before].
        -- rewrite append_nil_l in E.
           assert (starts_with pat (String c s) = true) as Hs
             by (apply starts_with_spec; by exists after).
           congruence.
        -- rewrite append_cons in E. injection E as _ ->. by exists before, after.
Qed.

Lemma write_all_from (ls : list string) (acc : string) :
  fold_left (fun content line => content +:+ line) ls acc = acc +:+ write_all ls.
Proof.
  unfold write_all. revert acc.
  induction ls as [|l ls IH]; intros acc; simpl.
  - by rewrite append_nil_r.
  - rewrite IH, (IH (EmptyString +:+ l)). by rewrite append_nil_l, append_assoc.
Qed.

Lemma write_all_cons (l : string) (ls : list string) :
  write_all (l :: ls) = l +:+ write_all ls.
Proof. unfold write_all at 1. simpl. rewrite append_nil_l. apply write_all_from. Qed.

Lemma write_all_app (ls ks : list string) :
  write_all (ls ++ ks) = write_all ls +:+ write_all ks.
Proof.
  induction ls as [|l ls IH]; [reflexivity |].
  simpl. by rewrite !write_all_cons, IH, append_assoc.
Qed.

(** Empty lines are lines, and a last line without line feed is a line. *)
Example iter_lines_unterminated :
  iter_lines (nl "a" +:+ nl "" +:+ "b") = [nl "a"; nl ""; "b"].
Proof. reflexivity. Qed.

(** CR LF and a CR alone end a line, and the line is delivered with a
    line feed. *)
Example iter_lines_carriage_returns :
  iter_lines (String "a" (String CR (String LF (String "b" (String CR "c"))))) =
  [nl "a"; nl "b"; "c"].
Proof. reflexivity. Qed.

(** Well-formed and ill-formed bytes: ASCII, a two-byte and a three-byte
    encoding; a lone [0xFF], an overlong form, a surrogate, a sequence cut
    short. *)
Example utf8_valid_examples :
  utf8_valid "plain" = true ∧
  utf8_valid (String (ascii_of_nat 195) (String (ascii_of_nat 169) "")) = true ∧
  utf8_valid (String (ascii_of_nat 226) (String (ascii_of_nat 130)
                (String (ascii_of_nat 172) ""))) = true ∧
  utf8_valid (String (ascii_of_nat 255) "") = false ∧
  utf8_valid (String (ascii_of_nat 192) (String (ascii_of_nat 128) "")) = false ∧
  utf8_valid (String (ascii_of_nat 237) (String (ascii_of_nat 160)
                (String (ascii_of_nat 128) ""))) = false ∧
  utf8_valid (String (ascii_of_nat 226) (String (ascii_of_nat 130) "")) = false.
Proof. repeat split. Qed.

(** Induction on a text, two characters at a time. *)
Lemma string_pair_ind (P : string -> Prop) :
  P EmptyString ->
  (∀ c, P (String c EmptyString)) ->
  (∀ c c' s, P s -> P (String c' s) -> P (String c (String c' s))) ->
  ∀ s, P s.
Proof.
  intros H0 H1 H2 s.
  assert (P s ∧ ∀ c, P (String c s)) as [H _]; [| exact H].
  induction s as [|c' s [IH IH']]; [by split |].
  split; [apply IH' |]. intros c. by apply H2.
Qed.

(** Writing back the lines of a text gives the text. *)
Lemma write_all_split_lf (s : string) : write_all (split_lf s) = s.
Proof.
  induction s as [|c s IH]; [reflexivity |].
  simpl. destruct (Ascii.eqb c LF).
  - rewrite write_all_cons, append_cons, append_nil_l. by rewrite IH.
  - destruct (split_lf s) as [|l ls].
    + rewrite write_all_cons, append_cons, append_nil_l. by rewrite <- IH.
    + rewrite write_all_cons, append_cons. rewrite write_all_cons in IH. by rewrite IH.
Qed.

(** Writing back the lines read from a file gives the text of the file
    with its line endings turned into line feeds. *)
Lemma write_all_iter_lines (s : string) :
  write_all (iter_lines s) = universal_newlines s.
Proof. apply write_all_split_lf. Qed.

Lemma universal_newlines_cons (c : ascii) (s : string) :
  Ascii.eqb c CR = false ->
  universal_newlines (String c s) = String c (universal_newlines s).
Proof. intros H. simpl. by rewrite H. Qed.

Lemma universal_newlines_cr_lf (s : string) :
  universal_newlines (String CR (String LF s)) = String LF (universal_newlines s).
Proof. reflexivity. Qed.

Lemma universal_newlines_cr (c : ascii) (s : string) :
  Ascii.eqb c LF = false ->
  universal_newlines (String CR (String c s)) =
  String LF (universal_newlines (String c s)).
Proof.
  intros H. change (universal_newlines (String CR (String c s))) with
    (if Ascii.eqb c LF then String LF (universal_newlines s)
     else String LF (universal_newlines (String c s))).
  by rewrite H.
Qed.



Lemma contains_cr_cons (c : ascii) (s : string) :
  contains (String CR EmptyString) (String c s) =
  Ascii.eqb CR c || contains (String CR EmptyString) s.
Proof.
  change (contains (String CR EmptyString) (String c s)) with
    (if (if Ascii.eqb CR c then true else false) then true
     else contains (String CR EmptyString) s).
  by destruct (Ascii.eqb CR c).
Qed.

(** A text without carriage return is read as it is. *)
Lemma universal_newlines_no_cr (s : string) :
  contains (String CR EmptyString) s = false -> universal_newlines s = s.
Proof.
  induction s as [|c s IH]; [done |].
  rewrite contains_cr_cons. intros [Hc Hs]%orb_false_elim.
  rewrite universal_newlines_cons; [by rewrite IH | by rewrite Ascii.eqb_sym].
Qed.

(** No carriage return is left after the translation. *)
Lemma universal_newlines_cr_free (s : string) :
  contains (String CR EmptyString) (universal_newlines s) = false.
Proof.
  induction s as [| c | c c' s IH IH'] using string_pair_ind.
  - done.
  - simpl universal_newlines. destruct (Ascii.eqb c CR) eqn:Hc; [done |].
    rewrite contains_cr_cons, Ascii.eqb_sym, Hc. done.
  - destruct (Ascii.eqb c CR) eqn:Hc.
    + apply Ascii.eqb_eq in Hc as ->. destruct (Ascii.eqb c' LF) eqn:Hl.
      * apply Ascii.eqb_eq in Hl as ->. rewrite universal_newlines_cr_lf.
        by rewrite contains_cr_cons.
      * rewrite (universal_newlines_cr _ _ Hl). by rewrite contains_cr_cons.
    + rewrite (universal_newlines_cons _ _ Hc).
      by rewrite contains_cr_cons, Ascii.eqb_sym, Hc.
Qed.

(** The pieces of a text without carriage return are lines. *)
Lemma split_lf_is_line (s : string) :
  contains (String CR EmptyString) s = false ->
  Forall (fun l => is_line l = true) (split_lf s).
Proof.
  induction s as [|c s IH]; [constructor |].
  rewrite contains_cr_cons. intros [Hc Hs]%orb_false_elim.
  rewrite Ascii.eqb_sym in Hc. specialize (IH Hs). simpl.
  destruct (Ascii.eqb c LF) eqn:Hl.
  - constructor; [| done]. simpl. by rewrite Hc.
  - destruct (split_lf s) as [|l ls]; constructor; try done.
    + simpl. by rewrite Hc.
    + apply Forall_cons in IH as [Hline _].
      destruct l as [|k l]; [done |].
      change (is_line (String c (String k l))) with
        (negb (Ascii.eqb c LF) && negb (Ascii.eqb c CR) && is_line (String k l)).
      by rewrite Hl, Hc.
    + by apply Forall_cons in IH as [_ IH].
Qed.

(** Every line handed out by the iteration over a file is a line. *)
Lemma iter_lines_is_line (s : string) :
  Forall (fun l => is_line l = true) (iter_lines s).
Proof. apply split_lf_is_line, universal_newlines_cr_free. Qed.

End TextFacts.

(** ** Facts about the scan loop *)

Module ScanFacts.
Import Text Codelab Spec.

(** One turn of the loop, read on the flag and on the kept lines. *)
Lemma step_discard (st : scan_state) (l : string) :
  discard (step st l) = if discard st then negb (is_end l) else is_start l.
Proof.
  unfold step, is_end, is_start. destruct (discard st) eqn:Hd.
  - destruct (contains codelabEndPattern l); simpl; [reflexivity | exact Hd].
  - by destruct (contains codelabStartPattern l).
Qed.

Lemma step_lines (st : scan_state) (l : string) :
  lines (step st l) = if discard st then lines st else lines st ++ [l].
Proof.
  unfold step. destruct (discard st).
  - by destruct (contains codelabEndPattern l).
  - by destruct (contains codelabStartPattern l).
Qed.

Lemma scan_state_eq (st st' : scan_state) :
  discard st = discard st' -> lines st = lines st' -> st = st'.
Proof. destruct st, st'; simpl; by intros -> ->. Qed.

(** The loop as a fold agrees with the loop as a recursion. *)
Lemma scan_from_keep (ls : list string) (st : scan_state) :
  scan_from st ls =
  {| discard := flag_after (discard st) ls;
     lines := lines st ++ keep (discard st) ls |}.
Proof.
  unfold scan_from. revert st.
  induction ls as [|l ls IH]; intros st; simpl.
  - rewrite app_nil_r. by destruct st.
  - rewrite IH, step_discard, step_lines. f_equal.
    destruct (discard st); [reflexivity |]. by rewrite <- app_assoc.
Qed.

Lemma filter_lines_keep (ls : list string) : filter_lines ls = keep false ls.
Proof. unfold filter_lines, scan. by rewrite scan_from_keep. Qed.

Lemma scan_discard (ls : list string) : discard (scan ls) = flag_after false ls.
Proof. unfold scan. by rewrite scan_from_keep. Qed.

Lemma scan_app (pre post : list string) :
  scan (pre ++ post) = scan_from (scan pre) post.
Proof. unfold scan, scan_from. apply fold_left_app. Qed.

Lemma scan_snoc (pre : list string) (l : string) :
  scan (pre ++ [l]) = step (scan pre) l.
Proof. by rewrite scan_app. Qed.

Lemma flag_after_app (d : bool) (a b : list string) :
  flag_after d (a ++ b) = flag_after (flag_after d a) b.
Proof. revert d. induction a as [|l a IH]; intros d; simpl; [reflexivity | apply IH]. Qed.

Lemma keep_app (d : bool) (a b : list string) :
  keep d (a ++ b) = keep d a ++ keep (flag_after d a) b.
Proof.
  revert d. induction a as [|l a IH]; intros d; simpl; [reflexivity |].
  destruct d; simpl; by rewrite IH.
Qed.

(** Outside a region, lines without start marker are kept and the flag
    stays off. *)
Lemma keep_outside (pre : list string) :
  Forall (fun l => is_start l = false) pre ->
  keep false pre = pre ∧ flag_after false pre = false.
Proof.
  induction 1 as [|l pre Hl _ [IHk IHf]]; simpl; [done |].
  rewrite Hl. by rewrite IHk, IHf.
Qed.

(** Inside a region, lines without end marker are skipped and the flag
    stays on. *)
Lemma keep_inside (body : list string) :
  Forall (fun l => is_end l = false) body ->
  keep true body = [] ∧ flag_after true body = true.
Proof.
  induction 1 as [|l body Hl _ [IHk IHf]]; simpl; [done |].
  rewrite Hl. simpl. by rewrite IHk, IHf.
Qed.

(** What the loop does with one whole region. *)
Lemma keep_region (pre : list string) (s : string) (body : list string)
    (e : string) (rest : list string) :
  Forall (fun l => is_start l = false) pre ->
  is_start s = true ->
  Forall (fun l => is_end l = false) body ->
  is_end e = true ->
  keep false (pre ++ s :: body ++ e :: rest) = pre ++ s :: keep false rest ∧
  flag_after false (pre ++ s :: body ++ e :: rest) = flag_after false rest.
Proof.
  intros Hpre Hs Hbody He.
  destruct (keep_outside pre Hpre) as [Hk Hf].
  destruct (keep_inside body Hbody) as [Hk' Hf'].
  rewrite keep_app, flag_after_app, Hk, Hf. simpl. rewrite Hs.
  rewrite keep_app, flag_after_app, Hk', Hf'. simpl. by rewrite He.
Qed.

(** What the loop does with a region that is never closed. *)
Lemma keep_open_region (pre : list string) (s : string) (body : list string) :
  Forall (fun l => is_start l = false) pre ->
  is_start s = true ->
  Forall (fun l => is_end l = false) body ->
  keep false (pre ++ s :: body) = pre ++ [s] ∧
  flag_after false (pre ++ s :: body) = true.
Proof.
  intros Hpre Hs Hbody.
  destruct (keep_outside pre Hpre) as [Hk Hf].
  destruct (keep_inside body Hbody) as [Hk' Hf'].
  rewrite keep_app, flag_after_app, Hk, Hf. simpl. by rewrite Hs, Hk', Hf'.
Qed.

(** The relation [stripped] determines the kept lines, and ends with the
    flag off. *)
Lemma stripped_keep (ls out : list string) :
  stripped ls out -> out = keep false ls ∧ flag_after false ls = false.
Proof.
  induction 1 as [pre Hpre | pre s body e rest out Hpre Hs Hbody He _ [IHk IHf]].
  - destruct (keep_outside pre Hpre) as [Hk Hf]. by rewrite Hk, Hf.
  - destruct (keep_region pre s body e rest Hpre Hs Hbody He) as [Hk Hf].
    by rewrite Hk, Hf, <- IHk.
Qed.

Lemma stripped_cons (l : string) (ls out : list string) :
  is_start l = false -> stripped ls out -> stripped (l :: ls) (l :: out).
Proof.
  intros Hl H. inversion H as [pre Hpre | pre s body e rest out' Hpre Hs Hbody He Hrest]; subst.
  - apply stripped_outside. by constructor.
  - apply (stripped_region (l :: pre) s body e rest out'); try done. by constructor.
Qed.

(** A loop that ends with the flag off has removed whole regions: from
    flag off the file is [stripped]; from flag on the file begins with the
    rest of a region and is [stripped] after it. *)
Lemma flag_off_stripped (ls : list string) :
  (flag_after false ls = false -> stripped ls (keep false ls)) ∧
  (flag_after true ls = false ->
   ∃ body e rest, ls = body ++ e :: rest ∧
     Forall (fun l => is_end l = false) body ∧ is_end e = true ∧
     stripped rest (keep true ls)).
Proof.
  induction ls as [|l ls [IHoff IHon]]; simpl.
  - split; [intros _; apply stripped_outside; constructor | done].
  - split.
    + intros Hf. destruct (is_start l) eqn:Hl.
      * destruct (IHon Hf) as (body & e & rest & -> & Hbody & He & Hrest).
        by apply (stripped_region [] l body e rest).
      * apply stripped_cons; [done | by apply IHoff].
    + intros Hf. destruct (is_end l) eqn:Hl; simpl in *.
      * exists [], l, ls. split_and!; [done | constructor | done | by apply IHoff].
      * destruct (IHon Hf) as (body & e & rest & -> & Hbody & He & Hrest).
        exists (l :: body), e, rest. split_and!; [done | by constructor | done | done].
Qed.

(** A well-formed file is read to its end with the flag off. *)
Lemma well_formed_flag_off (ls : list string) (d : bool) :
  well_formed ls = true ->
  (d = true -> existsb is_end ls = true) ->
  flag_after d ls = false.
Proof.
  revert d. induction ls as [|l ls IH]; intros d Hwf Hd; simpl in *.
  - destruct d; [by specialize (Hd eq_refl) | done].
  - apply andb_true_iff in Hwf as [Hl Hwf]. apply IH; [done |].
    destruct d.
    + specialize (Hd eq_refl). destruct (is_end l); simpl in *; [done | by intros _].
    + intros Hs. rewrite Hs in Hl. by simpl in Hl.
Qed.

(** A loop that ends with the flag on has an open region at the end of
    the file. *)
Lemma flag_on_open_region (ls : list string) (d : bool) :
  flag_after d ls = true ->
  (d = true ∧ Forall (fun l => is_end l = false) ls) ∨
  (∃ pre s body, ls = pre ++ s :: body ∧ flag_after d pre = false ∧
     is_start s = true ∧ Forall (fun l => is_end l = false) body).
Proof.
  revert d. induction ls as [|l ls IH]; intros d Hf; simpl in *.
  - left. by subst.
  - destruct (IH _ Hf) as [[Hd Hbody] | (pre & s & body & -> & Hpre & Hs & Hbody)].
    + destruct d.
      * left. split; [done |]. constructor; [| done]. by destruct (is_end l).
      * right. by exists [], l, ls.
    + right. by exists (l :: pre), s, body.
Qed.

(** The kept lines are a subsequence of the lines read. *)
Lemma keep_sublist (d : bool) (ls : list string) : keep d ls `sublist_of` ls.
Proof.
  revert d. induction ls as [|l ls IH]; intros d; simpl; [constructor |].
  destruct d; [apply sublist_cons | apply sublist_skip]; apply IH.
Qed.

Lemma classify_length (st : scan_state) (ls : list string) :
  List.length (classify st ls) = List.length ls.
Proof. revert st. induction ls as [|l ls IH]; intros st; simpl; [done | by rewrite IH]. Qed.

Lemma classify_select (st : scan_state) (ls : list string) :
  select (classify st ls) ls = keep (discard st) ls.
Proof.
  revert st. induction ls as [|l ls IH]; intros st; simpl; [done |].
  rewrite IH, step_discard. by destruct (discard st).
Qed.

Lemma select_partition {A : Type} (mask : list bool) (ls : list A) :
  List.length mask = List.length ls ->
  select mask ls ++ select (negb <$> mask) ls ≡ₚ ls.
Proof.
  revert ls. induction mask as [|b mask IH]; intros [|x ls] Hlen; simpl in *; try done.
  injection Hlen as Hlen. destruct b; simpl.
  - by rewrite IH.
  - rewrite <- Permutation_middle. by rewrite IH.
Qed.

Lemma clean_no_start (ls : list string) :
  clean ls -> Forall (fun l => is_start l = false) ls.
Proof.
  unfold clean. intros H. eapply Forall_impl; [exact H |]. by intros l [Hl _].
Qed.

(** Without start marker nothing is ever discarded. *)
Lemma filter_lines_no_start (ls : list string) :
  Forall (fun l => is_start l = false) ls -> filter_lines ls = ls.
Proof. intros H. rewrite filter_lines_keep. by apply keep_outside. Qed.

End ScanFacts.

(** ** Facts about the script as a process *)

Module ScriptFacts.
Import Text Codelab Script Spec TextFacts ScanFacts.

(** The write loop adds the lines, in order, to the text the file holds. *)
Lemma write_each_ok (path : string) (ls : list string) (w : world) (text : string) :
  files w !! path = Some text ->
  write_each path ls w =
  (Ok tt, {| files := <[path := text +:+ write_all ls]> (files w);
             unreadable := unreadable w; unwritable := unwritable w;
             stderr := stderr w;
             io_log := io_log w ++ (WriteText path <$> ls) |}).
Proof.
  revert w text. induction ls as [|l ls IH]; intros w text Hw; simpl.
  - unfold mret, M_ret. f_equal. destruct w as [fs nr nw err log]; simpl in *.
    rewrite append_nil_r, app_nil_r. f_equal. symmetry. by apply insert_id.
  - unfold mbind, M_bind, write at 1.
    erewrite IH; simpl.
    2:{ rewrite (alter_alt_Some _ _ _ _ Hw). apply lookup_insert_eq. }
    f_equal. f_equal.
    + rewrite (alter_alt_Some _ _ _ _ Hw), insert_insert_eq.
      by rewrite write_all_cons, append_assoc.
    + by rewrite <- app_assoc.
Qed.

(** With a path argument that names a file that can be read, decoded and
    written, the script runs to its end: it reads the file once, truncates
    it, and writes the kept lines; nothing is printed on standard error. *)
Lemma main_ok (prog path : string) (extra : list string) (w : world) (text : string) :
  files w !! path = Some text ->
  path ∉ unreadable w ->
  utf8_valid text = true ->
  path ∉ unwritable w ->
  main (prog :: path :: extra) w =
  (Ok tt, {| files := <[path := write_all (filter_lines (iter_lines text))]> (files w);
             unreadable := unreadable w; unwritable := unwritable w;
             stderr := stderr w;
             io_log := io_log w ++ OpenRead path :: OpenWrite path ::
                         (WriteText path <$> filter_lines (iter_lines text)) |}).
Proof.
  intros Hw Hr Hv Hwr. unfold main. simpl.
  unfold mbind at 1, M_bind at 1, read_lines.
  unfold mbind at 1, M_bind at 1, open_read. rewrite Hw.
  destruct (decide (path ∈ unreadable w)) as [|_]; [done |].
  unfold decode_lines. rewrite Hv. unfold mret, M_ret.
  unfold mbind, M_bind, open_write. cbn [unwritable].
  destruct (decide (path ∈ unwritable w)) as [|_]; [done |].
  erewrite write_each_ok; [| simpl; apply lookup_insert_eq].
  cbn [files unreadable unwritable stderr io_log]. unfold filter_lines.
  rewrite insert_insert_eq. rewrite append_nil_l.
  f_equal. f_equal. rewrite <- !app_assoc. reflexivity.
Qed.

Lemma run_ok (prog path : string) (extra : list string) (w : world) (text : string) :
  files w !! path = Some text ->
  path ∉ unreadable w ->
  utf8_valid text = true ->
  path ∉ unwritable w ->
  run (prog :: path :: extra) w =
  {| status := 0;
     final := {| files := <[path := write_all (filter_lines (iter_lines text))]> (files w);
                 unreadable := unreadable w; unwritable := unwritable w;
                 stderr := stderr w;
                 io_log := io_log w ++ OpenRead path :: OpenWrite path ::
                             (WriteText path <$> filter_lines (iter_lines text)) |} |}.
Proof.
  intros Hw Hr Hv Hwr. unfold run.
  by rewrite (main_ok prog path extra w text Hw Hr Hv Hwr).
Qed.

(** A missing file stops the script before anything is written. *)
Lemma run_missing_file (prog path : string) (extra : list string) (w : world) :
  files w !! path = None ->
  run (prog :: path :: extra) w = {| status := 1; final := w |}.
Proof.
  intros Hw. unfold run, main. simpl.
  unfold mbind, M_bind, read_lines, mbind, M_bind, open_read. by rewrite Hw.
Qed.

(** A file that may not be read stops the script at the first [open]. *)
Lemma run_unreadable (prog path : string) (extra : list string) (w : world)
    (text : string) :
  files w !! path = Some text ->
  path ∈ unreadable w ->
  run (prog :: path :: extra) w = {| status := 1; final := w |}.
Proof.
  intros Hw Hr. unfold run, main. simpl.
  unfold mbind, M_bind, read_lines, mbind, M_bind, open_read. rewrite Hw.
  by destruct (decide (path ∈ unreadable w)).
Qed.

(** The world after the file has been opened for reading and nothing
    else has happened. *)
Lemma run_undecodable (prog path : string) (extra : list string) (w : world)
    (text : string) :
  files w !! path = Some text ->
  path ∉ unreadable w ->
  utf8_valid text = false ->
  run (prog :: path :: extra) w =
  {| status := 1;
     final := {| files := files w;
                 unreadable := unreadable w; unwritable := unwritable w;
                 stderr := stderr w;
                 io_log := io_log w ++ [OpenRead path] |} |}.
Proof.
  intros Hw Hr Hv. unfold run, main. simpl.
  unfold mbind, M_bind, read_lines, mbind, M_bind, open_read. rewrite Hw.
  destruct (decide (path ∈ unreadable w)) as [|_]; [done |].
  unfold decode_lines. by rewrite Hv.
Qed.

Lemma run_unwritable (prog path : string) (extra : list string) (w : world)
    (text : string) :
  files w !! path = Some text ->
  path ∉ unreadable w ->
  utf8_valid text = true ->
  path ∈ unwritable w ->
  run (prog :: path :: extra) w =
  {| status := 1;
     final := {| files := files w;
                 unreadable := unreadable w; unwritable := unwritable w;
                 stderr := stderr w;
                 io_log := io_log w ++ [OpenRead path] |} |}.
Proof.
  intros Hw Hr Hv Hwr. unfold run, main. simpl.
  unfold mbind, M_bind, read_lines, mbind, M_bind, open_read. rewrite Hw.
  destruct (decide (path ∈ unreadable w)) as [|_]; [done |].
  unfold decode_lines. rewrite Hv. unfold mret, M_ret, open_write.
  cbn [unwritable]. by destruct (decide (path ∈ unwritable w)).
Qed.

(** The two ways a run on an existing file can end: with status 1 and
    every file as it was, or with status 0 and the kept lines in the file. *)
Lemma run_existing_cases (prog path : string) (extra : list string) (w : world)
    (text : string) :
  files w !! path = Some text ->
  (status (run (prog :: path :: extra) w) = 1 ∧
   files (final (run (prog :: path :: extra) w)) = files w) ∨
  (status (run (prog :: path :: extra) w) = 0 ∧
   files (final (run (prog :: path :: extra) w)) =
     <[path := write_all (filter_lines (iter_lines text))]> (files w)).
Proof.
  intros Hw.
  destruct (decide (path ∈ unreadable w)) as [Hr | Hr].
  { left. by rewrite (run_unreadable prog path extra w text Hw Hr). }
  destruct (utf8_valid text) eqn:Hv.
  2:{ left. by rewrite (run_undecodable prog path extra w text Hw Hr Hv). }
  destruct (decide (path ∈ unwritable w)) as [Hwr | Hwr].
  { left. by rewrite (run_unwritable prog path extra w text Hw Hr Hv Hwr). }
  right. by rewrite (run_ok prog path extra w text Hw Hr Hv Hwr).
Qed.

End ScriptFacts.

(** ** The properties of the specification *)

Module Properties.
Import Text Codelab Script Spec TextFacts ScanFacts ScriptFacts.

(** Claim C1, as stated, fails on a region that contains a second start
    marker: the file is well-formed, its second line contains the start
    marker, and that line is not in the output. *)
Lemma nested_start_marker_dropped :
  well_formed nested_in = true ∧
  is_start (nl "// CODELAB: B") = true ∧
  In (nl "// CODELAB: B") nested_in ∧
  ¬ In (nl "// CODELAB: B") (filter_lines nested_in).
Proof.
  split_and!; [reflexivity | reflexivity | simpl; tauto |].
  intros [H | []]. discriminate H.
Qed.

(** Claim C1, amended: for every well-formed file, the output is the file
    without its marked regions, where a region is opened by a start-marker
    line read outside every region and closed by the first end-marker line
    after it.  The opening line and the lines outside the regions are
    kept, in order; the lines strictly between the opening line and its
    matching end-marker line and that end-marker line are removed (a start
    marker among them included).  The output is the only list of lines
    that is so related to the file. *)
Theorem well_formed_regions_stripped (ls : list string) :
  well_formed ls = true ->
  stripped ls (filter_lines ls) ∧
  keeping (scan ls) ∧
  ∀ out, stripped ls out -> out = filter_lines ls.
Proof.
  intros Hwf.
  assert (flag_after false ls = false) as Hoff
    by (apply well_formed_flag_off; [exact Hwf | discriminate]).
  rewrite filter_lines_keep. split_and!.
  - by apply flag_off_stripped.
  - unfold keeping. by rewrite scan_discard.
  - intros out Hout. by apply stripped_keep.
Qed.

Lemma well_formed_regions_stripped_example :
  well_formed example_in = true ∧
  stripped example_in (filter_lines example_in) ∧
  keeping (scan example_in) ∧
  ∀ out, stripped example_in out -> out = filter_lines example_in.
Proof.
  split; [reflexivity |].
  apply (well_formed_regions_stripped example_in). reflexivity.
Defined.

(** Claim C2: the five lines of the example give the three lines of the
    specification, in the loop and in the file that is written back. *)
Theorem example_output :
  filter_lines example_in = example_out ∧
  iter_lines (write_all example_in) = example_in ∧
  run ["process-codelab-source-file.py"; "Main.kt"]
      {| files := {[ "Main.kt" := write_all example_in ]};
         unreadable := ∅; unwritable := ∅;
         stderr := EmptyString; io_log := [] |} =
  {| status := 0;
     final := {| files := {[ "Main.kt" := write_all example_out ]};
                 unreadable := ∅; unwritable := ∅;
                 stderr := EmptyString;
                 io_log := [ OpenRead "Main.kt"; OpenWrite "Main.kt";
                             WriteText "Main.kt" (nl "A");
                             WriteText "Main.kt" (nl "// CODELAB: B");
                             WriteText "Main.kt" (nl "C") ] |} |}.
Proof.
  split_and!; [reflexivity | reflexivity |].
  erewrite run_ok;
    [| simpl; apply lookup_singleton_eq | apply not_elem_of_empty | reflexivity
     | apply not_elem_of_empty].
  simpl. rewrite insert_singleton_eq. reflexivity.
Qed.



(** Claim C4, as stated, fails on an end marker outside every region: the
    line is read with the flag off and is kept. *)
Lemma stray_end_marker_kept :
  is_end (nl "// CODELAB SECTION END") = true ∧
  In (nl "// CODELAB SECTION END") (filter_lines stray_end_in).
Proof. split; [reflexivity | simpl; tauto]. Qed.

(** Claim C4, amended: an end-marker line that is read in DISCARDING state
    (the line that closes a marked region) is never appended to the kept
    lines and sets the state back to KEEPING: the output for the whole file
    is the output for the lines before it followed by the output for the
    lines after it.  An end-marker line that is read in KEEPING state is
    appended like any other line. *)
Theorem end_marker_line_by_state (pre : list string) (e : string) (post : list string) :
  is_end e = true ->
  filter_lines (pre ++ e :: post) =
    filter_lines pre ++
    (if discard (scan pre) then filter_lines post
     else e :: lines (scan_from {| discard := is_start e; lines := [] |} post)) ∧
  discard (scan (pre ++ [e])) = (if discard (scan pre) then false else is_start e).
Proof.
  intros He.
  rewrite scan_from_keep, !filter_lines_keep, !scan_discard, keep_app, flag_after_app.
  simpl. destruct (flag_after false pre); simpl; by rewrite ?He.
Qed.

Lemma end_marker_line_by_state_example :
  is_end (nl "// CODELAB SECTION END") = true ∧
  filter_lines ([nl "A"; nl "// CODELAB: B"; nl "secret"] ++
                nl "// CODELAB SECTION END" :: [nl "C"]) =
    filter_lines [nl "A"; nl "// CODELAB: B"; nl "secret"] ++ filter_lines [nl "C"] ∧
  discard (scan ([nl "A"; nl "// CODELAB: B"; nl "secret"] ++
                 [nl "// CODELAB SECTION END"])) = false.
Proof.
  split; [reflexivity |].
  apply (end_marker_line_by_state [nl "A"; nl "// CODELAB: B"; nl "secret"]
           (nl "// CODELAB SECTION END") [nl "C"]).
  reflexivity.
Defined.

(** Claim C5, as stated, fails on an open region that contains a second
    start marker: the file ends in DISCARDING state, its last line is its
    final start-marker line, and that line is not in the output. *)
Lemma final_start_marker_line_dropped :
  discarding (scan nested_open_in) ∧
  nested_open_in = [nl "// CODELAB: A"] ++ [nl "// CODELAB: B"] ∧
  is_start (nl "// CODELAB: B") = true ∧
  ¬ In (nl "// CODELAB: B") (filter_lines nested_open_in).
Proof.
  split_and!; [reflexivity | reflexivity | reflexivity |].
  intros [H | []]. discriminate H.
Qed.

(** Claim C5, amended: when the loop ends in DISCARDING state, the file
    ends with an open region: a start-marker line [s] that was read in
    KEEPING state and, after it, lines without end marker up to the end of
    the file.  All the lines after [s] are dropped (start-marker lines
    among them included), [s] is the last line of the output, and the open
    region raises no error: on a file that can be read, decoded and
    written, the script runs to its end with status 0 and nothing on
    standard error, and the file holds the kept lines. *)
Theorem open_region_truncated
    (prog path : string) (w : world) (text : string) :
  files w !! path = Some text ->
  path ∉ unreadable w ->
  utf8_valid text = true ->
  path ∉ unwritable w ->
  discarding (scan (iter_lines text)) ->
  ∃ pre s body,
    iter_lines text = pre ++ s :: body ∧
    Forall (fun l => is_line l = true) (pre ++ s :: body) ∧
    keeping (scan pre) ∧
    is_start s = true ∧
    Forall (fun l => is_end l = false) body ∧
    filter_lines (iter_lines text) = filter_lines pre ++ [s] ∧
    status (run [prog; path] w) = 0 ∧
    stderr (final (run [prog; path] w)) = stderr w ∧
    files (final (run [prog; path] w)) !! path =
      Some (write_all (filter_lines pre ++ [s])).
Proof.
  intros Hw Hr Hv Hwr Hd. unfold discarding in Hd. rewrite scan_discard in Hd.
  destruct (flag_on_open_region _ _ Hd)
    as [[Hf _] | (pre & s & body & Hls & Hpre & Hs & Hbody)]; [discriminate Hf |].
  exists pre, s, body.
  assert (filter_lines (iter_lines text) = filter_lines pre ++ [s]) as Hout.
  { rewrite Hls, !filter_lines_keep, keep_app, Hpre. simpl. rewrite Hs.
    by destruct (keep_inside body Hbody) as [-> _]. }
  rewrite (run_ok prog path [] w text Hw Hr Hv Hwr). simpl.
  split_and!; try done.
  - rewrite <- Hls. apply iter_lines_is_line.
  - unfold keeping. by rewrite scan_discard.
  - by rewrite lookup_insert_eq, Hout.
Qed.

Lemma open_region_truncated_example :
  files open_region_world !! "Main.kt" = Some open_region_text ∧
  ("Main.kt" ∉ unreadable open_region_world) ∧
  utf8_valid open_region_text = true ∧
  ("Main.kt" ∉ unwritable open_region_world) ∧
  discarding (scan (iter_lines open_region_text)) ∧
  status (run ["process-codelab-source-file.py"; "Main.kt"] open_region_world) = 0 ∧
  files (final (run ["process-codelab-source-file.py"; "Main.kt"] open_region_world))
    !! "Main.kt" = Some (nl "A" +:+ nl "// CODELAB: B").
Proof.
  assert (files open_region_world !! "Main.kt" = Some open_region_text) as Hw
    by apply lookup_singleton_eq.
  assert ("Main.kt" ∉ unreadable open_region_world) as Hr by apply not_elem_of_empty.
  assert (utf8_valid open_region_text = true) as Hv by reflexivity.
  assert ("Main.kt" ∉ unwritable open_region_world) as Hwr by apply not_elem_of_empty.
  assert (discarding (scan (iter_lines open_region_text))) as Hd by reflexivity.
  split_and!; try assumption;
    destruct (open_region_truncated "process-codelab-source-file.py" "Main.kt"
                open_region_world open_region_text Hw Hr Hv Hwr Hd)
      as (pre & s & body & _ & _ & _ & _ & _ & Hout & Hst & _ & Hfile).
  - exact Hst.
  - rewrite Hfile, <- Hout. reflexivity.
Defined.

(** Claim C6: the loop takes one decision for every line it reads, kept
    or discarded; the kept lines are the lines decided kept, in reading
    order, so they are a subsequence of the input; kept and discarded lines
    together are the lines of the input. *)
Theorem lines_classified_once_in_order (ls : list string) :
  List.length (classify init ls) = List.length ls ∧
  filter_lines ls = select (classify init ls) ls ∧
  filter_lines ls ++ select (negb <$> classify init ls) ls ≡ₚ ls ∧
  filter_lines ls `sublist_of` ls.
Proof.
  split_and!.
  - apply classify_length.
  - by rewrite classify_select, filter_lines_keep.
  - rewrite filter_lines_keep, <- (classify_select init).
    apply select_partition, classify_length.
  - rewrite filter_lines_keep. apply keep_sublist.
Qed.

(** Claim C7, as stated, fails on a line that contains both markers: read
    in DISCARDING state, the line contains the start marker and changes the
    state, back to KEEPING. *)
Lemma start_marker_with_end_marker_changes_state :
  discarding (scan [nl "// CODELAB: A"]) ∧
  is_start both_markers = true ∧
  scan ([nl "// CODELAB: A"] ++ [both_markers]) ≠ scan [nl "// CODELAB: A"].
Proof. split_and!; [reflexivity | reflexivity | discriminate]. Qed.

(** Claim C7, amended: a start-marker line that is read in DISCARDING state
    is not appended to the kept lines, and its start marker is not looked
    at: the state stays DISCARDING and nothing changes, unless the line
    also contains the end marker, in which case the state goes back to
    KEEPING as for every end-marker line. *)
Theorem start_marker_while_discarding (pre : list string) (l : string) :
  discarding (scan pre) ->
  is_start l = true ->
  lines (scan (pre ++ [l])) = lines (scan pre) ∧
  scan (pre ++ [l]) =
    (if is_end l then {| discard := false; lines := lines (scan pre) |}
     else scan pre).
Proof.
  unfold discarding. intros Hd _. rewrite scan_snoc.
  split.
  - by rewrite step_lines, Hd.
  - unfold step, is_end. rewrite Hd. by destruct (contains codelabEndPattern l).
Qed.

Lemma start_marker_while_discarding_example :
  discarding (scan [nl "// CODELAB: A"]) ∧
  is_start (nl "// CODELAB: B") = true ∧
  lines (scan ([nl "// CODELAB: A"] ++ [nl "// CODELAB: B"])) =
    lines (scan [nl "// CODELAB: A"]) ∧
  scan ([nl "// CODELAB: A"] ++ [nl "// CODELAB: B"]) = scan [nl "// CODELAB: A"].
Proof.
  split; [reflexivity |]. split; [reflexivity |].
  apply (start_marker_while_discarding [nl "// CODELAB: A"] (nl "// CODELAB: B"));
    reflexivity.
Defined.

(** Claim C8: when the output of the script contains no marker any more,
    running the script on that output changes nothing. *)
Theorem clean_output_refilter (ls : list string) :
  clean (filter_lines ls) ->
  filter_lines (filter_lines ls) = filter_lines ls.
Proof. intros H. apply filter_lines_no_start. by apply clean_no_start. Qed.

Lemma clean_output_refilter_example :
  clean (filter_lines [nl "A"; nl "C"]) ∧
  filter_lines (filter_lines [nl "A"; nl "C"]) = filter_lines [nl "A"; nl "C"].
Proof.
  assert (clean (filter_lines [nl "A"; nl "C"])) as H by (repeat constructor).
  split; [exact H | exact (clean_output_refilter [nl "A"; nl "C"] H)].
Defined.

(** Claim C9: without a path argument ([sys.argv] has fewer than two
    elements) the process ends with status 1, the usage message is printed
    on standard error, and no file is opened, read or written. *)
Theorem missing_argument_exit (argv : list string) (w : world) :
  List.length argv < 2 ->
  status (run argv w) = 1 ∧
  stderr (final (run argv w)) =
    stderr w +:+ nl "Error: Please specify the name of the file to process." ∧
  files (final (run argv w)) = files w ∧
  io_log (final (run argv w)) = io_log w.
Proof.
  intros Hlen. unfold run, main.
  assert ((List.length argv <? 2)%nat = true) as -> by by apply Nat.ltb_lt.
  done.
Qed.

Lemma missing_argument_exit_example :
  List.length ["process-codelab-source-file.py"] < 2 ∧
  status (run ["process-codelab-source-file.py"] empty_world) = 1 ∧
  stderr (final (run ["process-codelab-source-file.py"] empty_world)) =
    stderr empty_world +:+ nl "Error: Please specify the name of the file to process." ∧
  files (final (run ["process-codelab-source-file.py"] empty_world)) = files empty_world ∧
  io_log (final (run ["process-codelab-source-file.py"] empty_world)) = io_log empty_world.
Proof.
  split; [simpl; lia |].
  apply (missing_argument_exit ["process-codelab-source-file.py"] empty_world).
  simpl; lia.
Defined.

(** Claim C10: the script is not idempotent on its own output.  The
    example file is well-formed; its output still has the start-marker
    line and no end-marker line; a second run drops the line after the
    start-marker line and gives a different, shorter result. *)
Theorem refilter_example_differs :
  well_formed example_in = true ∧
  In (nl "// CODELAB: B") (filter_lines example_in) ∧
  is_start (nl "// CODELAB: B") = true ∧
  Forall (fun l => is_end l = false) (filter_lines example_in) ∧
  filter_lines (filter_lines example_in) = [nl "A"; nl "// CODELAB: B"] ∧
  filter_lines (filter_lines example_in) ≠ filter_lines example_in.
Proof.
  split_and!; try reflexivity.
  - simpl. tauto.
  - repeat constructor.
  - discriminate.
Qed.

End Properties.

(** ** Further facts about the loop and the script *)

Module MoreFacts.
Import Text Codelab Script Spec TextFacts ScanFacts ScriptFacts.






Lemma keep_length (d : bool) (ls : list string) :
  (List.length (keep d ls) <= List.length ls)%nat.
Proof. apply sublist_length, keep_sublist. Qed.

(** With the flag on, the next line is lost whatever it is. *)
Lemma keep_on_shorter (l : string) (ls : list string) :
  (List.length (keep true (l :: ls)) < List.length (l :: ls))%nat.
Proof. simpl. pose proof (keep_length (negb (is_end l)) ls). lia. Qed.

(** The kept lines are the lines read exactly when no line but the last
    contains the start marker. *)
Lemma keep_fixed_iff (ls : list string) :
  keep false ls = ls ↔ Forall (fun l => is_start l = false) (removelast ls).
Proof.
  induction ls as [|l ls IH]; [by split; [constructor |] |].
  destruct ls as [|k ls].
  - simpl. split; [constructor | done].
  - change (removelast (l :: k :: ls)) with (l :: removelast (k :: ls)).
    change (keep false (l :: k :: ls)) with (l :: keep (is_start l) (k :: ls)).
    rewrite Forall_cons, <- IH. destruct (is_start l) eqn:Hl.
    + split; [| by intros [? _]]. intros H. injection H as H.
      pose proof (keep_on_shorter k ls) as Hlt.
      simpl in H, Hlt. rewrite H in Hlt. simpl in Hlt. lia.
    + split; [intros H; split; [done | congruence] | intros [_ H]; by rewrite H].
Qed.

End MoreFacts.

(** ** Further properties of the script *)

Module Extras.
Import Text Codelab Script Spec TextFacts ScanFacts ScriptFacts MoreFacts.

(** X1: when the file named by the argument does not exist, the script
    stops at [open(file, 'rt')]: status 1, the file is not created, no file
    is changed and no file operation takes place. *)
Theorem missing_file_nothing_written
    (prog path : string) (extra : list string) (w : world) :
  files w !! path = None ->
  status (run (prog :: path :: extra) w) = 1 ∧
  files (final (run (prog :: path :: extra) w)) = files w ∧
  io_log (final (run (prog :: path :: extra) w)) = io_log w.
Proof. intros Hw. by rewrite (run_missing_file prog path extra w Hw). Qed.

Lemma missing_file_nothing_written_example :
  files empty_world !! "Main.kt" = None ∧
  status (run ["process-codelab-source-file.py"; "Main.kt"] empty_world) = 1 ∧
  files (final (run ["process-codelab-source-file.py"; "Main.kt"] empty_world)) =
    files empty_world ∧
  io_log (final (run ["process-codelab-source-file.py"; "Main.kt"] empty_world)) =
    io_log empty_world.
Proof.
  split; [reflexivity |].
  apply (missing_file_nothing_written "process-codelab-source-file.py" "Main.kt" []
           empty_world).
  reflexivity.
Defined.

(** X2: only [sys.argv[1]] is used: arguments after the path are accepted
    and ignored. *)
Theorem extra_arguments_ignored
    (prog path : string) (extra : list string) (w : world) :
  run (prog :: path :: extra) w = run [prog; path] w.
Proof. reflexivity. Qed.

(** X3: the script touches no file but the one named by its argument. *)
Theorem other_files_untouched
    (prog path : string) (extra : list string) (w : world) (other : string) :
  other ≠ path ->
  files (final (run (prog :: path :: extra) w)) !! other = files w !! other.
Proof.
  intros Hne. destruct (files w !! path) as [text |] eqn:Hw.
  - destruct (run_existing_cases prog path extra w text Hw) as [[_ ->] | [_ ->]];
      [done | by apply lookup_insert_ne].
  - by rewrite (run_missing_file prog path extra w Hw).
Qed.

Lemma other_files_untouched_example :
  "Other.kt" ≠ "Main.kt" ∧
  files (final (run ["process-codelab-source-file.py"; "Main.kt"] two_file_world))
    !! "Other.kt" = files two_file_world !! "Other.kt".
Proof.
  assert ("Other.kt" ≠ "Main.kt") as Hne by discriminate.
  split; [exact Hne |].
  exact (other_files_untouched "process-codelab-source-file.py" "Main.kt" []
           two_file_world "Other.kt" Hne).
Defined.

(** X4: on an existing file that can be read, decoded and written, the
    script runs to its end with status 0 and prints nothing; the file then
    holds the kept lines one after the other, whatever it held before; the
    file is opened for reading, then opened for writing, then written once
    per kept line, in order. *)
Theorem existing_file_rewritten
    (prog path : string) (extra : list string) (w : world) (text : string) :
  files w !! path = Some text ->
  path ∉ unreadable w ->
  utf8_valid text = true ->
  path ∉ unwritable w ->
  status (run (prog :: path :: extra) w) = 0 ∧
  stderr (final (run (prog :: path :: extra) w)) = stderr w ∧
  files (final (run (prog :: path :: extra) w)) =
    <[path := write_all (filter_lines (iter_lines text))]> (files w) ∧
  io_log (final (run (prog :: path :: extra) w)) =
    io_log w ++ OpenRead path :: OpenWrite path ::
      (WriteText path <$> filter_lines (iter_lines text)).
Proof.
  intros Hw Hr Hv Hwr. by rewrite (run_ok prog path extra w text Hw Hr Hv Hwr).
Qed.

Lemma existing_file_rewritten_example :
  files crlf_world !! "Main.kt" = Some crlf_text ∧
  ("Main.kt" ∉ unreadable crlf_world) ∧
  utf8_valid crlf_text = true ∧
  ("Main.kt" ∉ unwritable crlf_world) ∧
  status (run ["process-codelab-source-file.py"; "Main.kt"] crlf_world) = 0 ∧
  stderr (final (run ["process-codelab-source-file.py"; "Main.kt"] crlf_world)) =
    stderr crlf_world ∧
  files (final (run ["process-codelab-source-file.py"; "Main.kt"] crlf_world)) =
    <["Main.kt" := write_all (filter_lines (iter_lines crlf_text))]>
      (files crlf_world) ∧
  io_log (final (run ["process-codelab-source-file.py"; "Main.kt"] crlf_world)) =
    io_log crlf_world ++ OpenRead "Main.kt" :: OpenWrite "Main.kt" ::
      (WriteText "Main.kt" <$> filter_lines (iter_lines crlf_text)).
Proof.
  assert (files crlf_world !! "Main.kt" = Some crlf_text) as Hw
    by apply lookup_singleton_eq.
  assert ("Main.kt" ∉ unreadable crlf_world) as Hr by apply not_elem_of_empty.
  assert (utf8_valid crlf_text = true) as Hv by reflexivity.
  assert ("Main.kt" ∉ unwritable crlf_world) as Hwr by apply not_elem_of_empty.
  split; [exact Hw |]. split; [exact Hr |]. split; [exact Hv |]. split; [exact Hwr |].
  exact (existing_file_rewritten "process-codelab-source-file.py" "Main.kt" []
           crlf_world crlf_text Hw Hr Hv Hwr).
Defined.



(** X6: the two tests of the loop are substring tests.  A line read with
    the flag off turns the flag on exactly when ['// CODELAB: '] occurs
    somewhere in it, and a line read with the flag on turns the flag off
    exactly when ['// CODELAB SECTION END'] occurs somewhere in it; text
    before and after the marker does not matter. *)
Theorem marker_is_substring (kept : list string) (line : string) :
  (discard (step {| discard := false; lines := kept |} line) = true ↔
     ∃ before after, line = before +:+ "// CODELAB: " +:+ after) ∧
  (discard (step {| discard := true; lines := kept |} line) = false ↔
     ∃ before after, line = before +:+ "// CODELAB SECTION END" +:+ after).
Proof.
  rewrite !step_discard. cbn [discard]. split.
  - apply contains_spec.
  - rewrite negb_false_iff. apply contains_spec.
Qed.

(** X7: a file in which no line contains the start marker, and that can
    be read, decoded and written, keeps all its lines, end markers or not:
    the script ends with status 0 and the file holds what it held with
    every line ending (CR LF, CR) turned into a line feed. *)
Theorem no_start_marker_file_normalised
    (prog path : string) (extra : list string) (w : world) (text : string) :
  files w !! path = Some text ->
  path ∉ unreadable w ->
  utf8_valid text = true ->
  path ∉ unwritable w ->
  Forall (fun l => is_start l = false) (iter_lines text) ->
  status (run (prog :: path :: extra) w) = 0 ∧
  files (final (run (prog :: path :: extra) w)) =
    <[path := universal_newlines text]> (files w).
Proof.
  intros Hw Hr Hv Hwr Hns. rewrite (run_ok prog path extra w text Hw Hr Hv Hwr).
  cbn [status final files].
  by rewrite (filter_lines_no_start _ Hns), write_all_iter_lines.
Qed.

Lemma no_start_marker_file_normalised_example :
  files crlf_world !! "Main.kt" = Some crlf_text ∧
  ("Main.kt" ∉ unreadable crlf_world) ∧
  utf8_valid crlf_text = true ∧
  ("Main.kt" ∉ unwritable crlf_world) ∧
  Forall (fun l => is_start l = false) (iter_lines crlf_text) ∧
  status (run ["process-codelab-source-file.py"; "Main.kt"] crlf_world) = 0 ∧
  files (final (run ["process-codelab-source-file.py"; "Main.kt"] crlf_world)) =
    <["Main.kt" := universal_newlines crlf_text]> (files crlf_world).
Proof.
  assert (files crlf_world !! "Main.kt" = Some crlf_text) as Hw
    by apply lookup_singleton_eq.
  assert ("Main.kt" ∉ unreadable crlf_world) as Hr by apply not_elem_of_empty.
  assert (utf8_valid crlf_text = true) as Hv by reflexivity.
  assert ("Main.kt" ∉ unwritable crlf_world) as Hwr by apply not_elem_of_empty.
  assert (Forall (fun l => is_start l = false) (iter_lines crlf_text)) as Hns
    by (repeat constructor).
  split; [exact Hw |]. split; [exact Hr |]. split; [exact Hv |]. split; [exact Hwr |].
  split; [exact Hns |].
  exact (no_start_marker_file_normalised "process-codelab-source-file.py" "Main.kt" []
           crlf_world crlf_text Hw Hr Hv Hwr Hns).
Defined.

(** X8: the lines written back are the lines read exactly when no line
    other than the last one contains the start marker.  (A start marker on
    the last line has nothing after it to discard.) *)
Theorem unchanged_iff_no_start_before_last (ls : list string) :
  filter_lines ls = ls ↔ Forall (fun l => is_start l = false) (removelast ls).
Proof. rewrite filter_lines_keep. apply keep_fixed_iff. Qed.



(** X10: the list of kept lines only grows at its end: what has been kept
    after a part of the file has been read is still the beginning of the
    output, whatever follows in the file. *)
Theorem kept_lines_only_grow (pre post : list string) :
  filter_lines pre `prefix_of` filter_lines (pre ++ post).
Proof. rewrite !filter_lines_keep, keep_app. by apply prefix_app_r. Qed.

(** X11: when the loop is in KEEPING state after the first part of a
    file, the rest of the file is treated as a file of its own: the output
    is the output of the first part followed by the output of the rest,
    and the final state is the one of the rest. *)
Theorem keeping_prefix_composes (pre post : list string) :
  keeping (scan pre) ->
  filter_lines (pre ++ post) = filter_lines pre ++ filter_lines post ∧
  discard (scan (pre ++ post)) = discard (scan post).
Proof.
  unfold keeping. rewrite !filter_lines_keep, !scan_discard, keep_app, flag_after_app.
  by intros ->.
Qed.

Lemma keeping_prefix_composes_example :
  keeping (scan example_in) ∧
  filter_lines (example_in ++ nested_in) =
    filter_lines example_in ++ filter_lines nested_in ∧
  discard (scan (example_in ++ nested_in)) = discard (scan nested_in).
Proof.
  split; [reflexivity |].
  apply (keeping_prefix_composes example_in nested_in). reflexivity.
Defined.

(** X12: in DISCARDING state every line without end marker is skipped
    without a trace, whatever else it contains: the state of the loop after
    such lines is the state before them. *)
Theorem discarding_skips_until_end_marker (pre body : list string) :
  discarding (scan pre) ->
  Forall (fun l => is_end l = false) body ->
  scan (pre ++ body) = scan pre.
Proof.
  unfold discarding. intros Hd Hbody.
  destruct (keep_inside body Hbody) as [Hk Hf].
  rewrite scan_app, scan_from_keep, Hd, Hk, Hf, app_nil_r.
  apply scan_state_eq; simpl; done.
Qed.

Lemma discarding_skips_until_end_marker_example :
  discarding (scan [nl "// CODELAB: A"]) ∧
  Forall (fun l => is_end l = false) [nl "secret"; nl "// CODELAB: B"] ∧
  scan ([nl "// CODELAB: A"] ++ [nl "secret"; nl "// CODELAB: B"]) =
    scan [nl "// CODELAB: A"].
Proof.
  assert (Forall (fun l => is_end l = false) [nl "secret"; nl "// CODELAB: B"]) as Hb
    by (repeat constructor).
  split; [reflexivity |]. split; [exact Hb |].
  apply (discarding_skips_until_end_marker [nl "// CODELAB: A"]
           [nl "secret"; nl "// CODELAB: B"]); [reflexivity | exact Hb].
Defined.

(** X13: everything up to and including the first line that contains the
    start marker is kept as it is, at the beginning of the output. *)
Theorem head_up_to_first_start_kept (pre : list string) (l : string) (rest : list string) :
  Forall (fun k => is_start k = false) pre ->
  pre ++ [l] `prefix_of` filter_lines (pre ++ l :: rest).
Proof.
  intros Hpre. destruct (keep_outside pre Hpre) as [Hk Hf].
  rewrite filter_lines_keep, keep_app, Hk, Hf. simpl.
  apply prefix_app, prefix_cons, prefix_nil.
Qed.

Lemma head_up_to_first_start_kept_example :
  Forall (fun k => is_start k = false) [nl "A"] ∧
  [nl "A"] ++ [nl "// CODELAB: B"] `prefix_of`
    filter_lines ([nl "A"] ++ nl "// CODELAB: B" :: [nl "secret"; nl "more"]).
Proof.
  assert (Forall (fun k => is_start k = false) [nl "A"]) as Hpre
    by (repeat constructor).
  split; [exact Hpre |].
  exact (head_up_to_first_start_kept [nl "A"] (nl "// CODELAB: B")
           [nl "secret"; nl "more"] Hpre).
Defined.

(** X14: a start-marker line that is read in KEEPING state is kept and
    opens a region even when the same line also contains the end marker:
    the end marker is not looked at on that line, and the lines after it
    are read in DISCARDING state. *)
Theorem start_marker_line_opens_region (pre : list string) (l : string) (post : list string) :
  keeping (scan pre) ->
  is_start l = true ->
  discarding (scan (pre ++ [l])) ∧
  filter_lines (pre ++ l :: post) =
    filter_lines pre ++ l :: lines (scan_from {| discard := true; lines := [] |} post).
Proof.
  unfold keeping, discarding. intros Hd Hl.
  rewrite scan_from_keep, !filter_lines_keep, !scan_discard, keep_app, flag_after_app.
  rewrite scan_discard in Hd. rewrite Hd. simpl. by rewrite Hl.
Qed.

Lemma start_marker_line_opens_region_example :
  keeping (scan [nl "A"]) ∧
  is_start both_markers = true ∧
  discarding (scan ([nl "A"] ++ [both_markers])) ∧
  filter_lines ([nl "A"] ++ both_markers :: [nl "C"]) =
    filter_lines [nl "A"] ++
    both_markers :: lines (scan_from {| discard := true; lines := [] |} [nl "C"]).
Proof.
  split; [reflexivity |]. split; [reflexivity |].
  apply (start_marker_line_opens_region [nl "A"] both_markers [nl "C"]); reflexivity.
Defined.

(** X15: a file without carriage return in which no line contains the
    start marker, and that can be read, decoded and written, is left
    exactly as it was: status 0 and the same file store. *)
Theorem no_start_marker_lf_file_unchanged
    (prog path : string) (extra : list string) (w : world) (text : string) :
  files w !! path = Some text ->
  path ∉ unreadable w ->
  utf8_valid text = true ->
  path ∉ unwritable w ->
  contains (String CR EmptyString) text = false ->
  Forall (fun l => is_start l = false) (iter_lines text) ->
  status (run (prog :: path :: extra) w) = 0 ∧
  files (final (run (prog :: path :: extra) w)) = files w.
Proof.
  intros Hw Hr Hv Hwr Hcr Hns. rewrite (run_ok prog path extra w text Hw Hr Hv Hwr).
  cbn [status final files].
  rewrite (filter_lines_no_start _ Hns), write_all_iter_lines.
  rewrite (universal_newlines_no_cr _ Hcr). split; [done | by apply insert_id].
Qed.

Lemma no_start_marker_lf_file_unchanged_example :
  files two_file_world !! "Main.kt" = Some no_start_text ∧
  ("Main.kt" ∉ unreadable two_file_world) ∧
  utf8_valid no_start_text = true ∧
  ("Main.kt" ∉ unwritable two_file_world) ∧
  contains (String CR EmptyString) no_start_text = false ∧
  Forall (fun l => is_start l = false) (iter_lines no_start_text) ∧
  status (run ["process-codelab-source-file.py"; "Main.kt"] two_file_world) = 0 ∧
  files (final (run ["process-codelab-source-file.py"; "Main.kt"] two_file_world)) =
    files two_file_world.
Proof.
  assert (files two_file_world !! "Main.kt" = Some no_start_text) as Hw
    by reflexivity.
  assert ("Main.kt" ∉ unreadable two_file_world) as Hr by apply not_elem_of_empty.
  assert (utf8_valid no_start_text = true) as Hv by reflexivity.
  assert ("Main.kt" ∉ unwritable two_file_world) as Hwr by apply not_elem_of_empty.
  assert (contains (String CR EmptyString) no_start_text = false) as Hcr
    by reflexivity.
  assert (Forall (fun l => is_start l = false) (iter_lines no_start_text)) as Hns
    by (repeat constructor).
  split; [exact Hw |]. split; [exact Hr |]. split; [exact Hv |]. split; [exact Hwr |].
  split; [exact Hcr |]. split; [exact Hns |].
  exact (no_start_marker_lf_file_unchanged "process-codelab-source-file.py" "Main.kt" []
           two_file_world no_start_text Hw Hr Hv Hwr Hcr Hns).
Defined.

(** X16: a file whose bytes are not UTF-8 stops the script while it
    reads: status 1, the file has been opened for reading and nothing
    else, and no file is changed, wherever in the file the bad byte is. *)
Theorem undecodable_file_untouched
    (prog path : string) (extra : list string) (w : world) (text : string) :
  files w !! path = Some text ->
  path ∉ unreadable w ->
  utf8_valid text = false ->
  status (run (prog :: path :: extra) w) = 1 ∧
  files (final (run (prog :: path :: extra) w)) = files w ∧
  io_log (final (run (prog :: path :: extra) w)) = io_log w ++ [OpenRead path].
Proof.
  intros Hw Hr Hv. by rewrite (run_undecodable prog path extra w text Hw Hr Hv).
Qed.

Lemma undecodable_file_untouched_example :
  files undecodable_world !! "Main.kt" = Some undecodable_text ∧
  ("Main.kt" ∉ unreadable undecodable_world) ∧
  utf8_valid undecodable_text = false ∧
  status (run ["process-codelab-source-file.py"; "Main.kt"] undecodable_world) = 1 ∧
  files (final (run ["process-codelab-source-file.py"; "Main.kt"] undecodable_world)) =
    files undecodable_world ∧
  io_log (final (run ["process-codelab-source-file.py"; "Main.kt"] undecodable_world)) =
    io_log undecodable_world ++ [OpenRead "Main.kt"].
Proof.
  assert (files undecodable_world !! "Main.kt" = Some undecodable_text) as Hw
    by apply lookup_singleton_eq.
  assert ("Main.kt" ∉ unreadable undecodable_world) as Hr by apply not_elem_of_empty.
  assert (utf8_valid undecodable_text = false) as Hv by reflexivity.
  split; [exact Hw |]. split; [exact Hr |]. split; [exact Hv |].
  exact (undecodable_file_untouched "process-codelab-source-file.py" "Main.kt" []
           undecodable_world undecodable_text Hw Hr Hv).
Defined.

(** X17: a file that may not be opened, for reading or for writing, stops
    the script with status 1 and is not changed: a file that may not be
    written is not truncated, and nothing is opened for writing or
    written. *)
Theorem permission_denied_file_untouched
    (prog path : string) (extra : list string) (w : world) (text : string) :
  files w !! path = Some text ->
  path ∈ unreadable w ∨ path ∈ unwritable w ->
  status (run (prog :: path :: extra) w) = 1 ∧
  files (final (run (prog :: path :: extra) w)) = files w ∧
  (io_log (final (run (prog :: path :: extra) w)) = io_log w ∨
   io_log (final (run (prog :: path :: extra) w)) = io_log w ++ [OpenRead path]).
Proof.
  intros Hw Hdenied.
  destruct (decide (path ∈ unreadable w)) as [Hr | Hr].
  { rewrite (run_unreadable prog path extra w text Hw Hr). split_and!; auto. }
  destruct Hdenied as [? | Hwr]; [done |].
  destruct (utf8_valid text) eqn:Hv.
  - rewrite (run_unwritable prog path extra w text Hw Hr Hv Hwr). split_and!; auto.
  - rewrite (run_undecodable prog path extra w text Hw Hr Hv). split_and!; auto.
Qed.

Lemma permission_denied_file_untouched_example :
  files read_only_world !! "Main.kt" = Some open_region_text ∧
  ("Main.kt" ∈ unreadable read_only_world ∨ "Main.kt" ∈ unwritable read_only_world) ∧
  status (run ["process-codelab-source-file.py"; "Main.kt"] read_only_world) = 1 ∧
  files (final (run ["process-codelab-source-file.py"; "Main.kt"] read_only_world)) =
    files read_only_world ∧
  (io_log (final (run ["process-codelab-source-file.py"; "Main.kt"] read_only_world)) =
     io_log read_only_world ∨
   io_log (final (run ["process-codelab-source-file.py"; "Main.kt"] read_only_world)) =
     io_log read_only_world ++ [OpenRead "Main.kt"]).
Proof.
  assert (files read_only_world !! "Main.kt" = Some open_region_text) as Hw
    by apply lookup_singleton_eq.
  assert ("Main.kt" ∈ unreadable read_only_world ∨
          "Main.kt" ∈ unwritable read_only_world) as Hd
    by (right; simpl; set_solver).
  split; [exact Hw |]. split; [exact Hd |].
  exact (permission_denied_file_untouched "process-codelab-source-file.py" "Main.kt" []
           read_only_world open_region_text Hw Hd).
Defined.

End Extras.
